(** * Peer reachability monitor and password-source selection

    A shallow embedding of two Go files of the repository:

    - [vendor/github.com/coreos/etcd/etcdserver/api/rafthttp/probing_status.go]
      (module [rafthttp]): registration of a peer with the prober and the
      per-peer monitoring loop;
    - [cmd/geth/passwords.go] (module [geth]): the decision whether the
      account password comes from the command line or from Vault.

    Go values are modelled as follows.  A [time.Duration] is an [int64]
    count of nanoseconds, here a [Z] with the wrap-around written out.  A
    Go [string] is a [string].  An [error] is [option string], [None]
    being [nil].  Calls on the logging and metrics sinks, the timer and the
    [go] statement are recorded, in program order, in a list of [Event]s. *)

From Stdlib Require Import ZArith QArith Lia Ascii.
From stdpp Require Import base list strings gmap.

(** ** Package [time] *)

Module time.

Definition Duration : Type := Z.

Definition min_int64 : Z := - 2 ^ 63.
Definition max_int64 : Z := 2 ^ 63 - 1.

(** Two's complement wrap-around of [int64] arithmetic. *)
Definition wrap64 (z : Z) : Z := ((z + 2 ^ 63) mod 2 ^ 64 - 2 ^ 63)%Z.

Definition Nanosecond : Duration := 1%Z.
Definition Second : Duration := (1000000000 * Nanosecond)%Z.

Definition sub (a b : Duration) : Duration := wrap64 (a - b).
Definition mul (a b : Duration) : Duration := wrap64 (a * b).

End time.

(** Go's [error] interface: [nil] or a message. *)
Definition error : Type := option string.

(** ** Package [rafthttp]: [probing_status.go] *)

Module rafthttp.

(** *** Collaborators

    [zap.Logger], [plog], the [rttSec] histogram, the runtime timer and the
    [go] statement only receive calls; each call is recorded as an
    [Event]. *)

Inductive zap_Logger : Type := zap_NewLogger (name : string).

(** A structured field of a [zap] log entry: [zap.String], [zap.Duration]
    and [zap.Error]. *)
Inductive Field : Type :=
| zap_String (key val : string)
| zap_Duration (key : string) (d : time.Duration)
| zap_Error (err : error).

(** An argument of a [plog] format string. *)
Inductive Arg : Type :=
| arg_string (s : string)
| arg_Duration (d : time.Duration)
| arg_error (err : error).

Inductive Level : Type := WarnLevel | ErrorLevel.

#[global] Instance zap_Logger_eq_dec : EqDecision zap_Logger.
Proof. solve_decision. Defined.
#[global] Instance Field_eq_dec : EqDecision Field.
Proof. unfold error. solve_decision. Defined.
#[global] Instance Arg_eq_dec : EqDecision Arg.
Proof. unfold error. solve_decision. Defined.

(** The interface [probing.Status].  A value of [S] is the status handle
    together with its contents at the moment it is read.  The prober
    updates the handle from its own goroutine; the calls one iteration of
    the monitor makes on it are taken to read the same contents.
    [StopNotify] is a channel and appears as an outcome of [select]
    below. *)
Class probing_Status (S : Type) : Type := {
  Health : S -> bool;
  SRTT : S -> time.Duration;
  Err : S -> error;
  ClockDiff : S -> time.Duration
}.

(** The interface [probing.Prober], restricted to the two methods the file
    calls.  [P] is the state of the prober; [AddHTTP] returns the new state
    and its [error] result, [Status] the handle or the error. *)
Class probing_Prober (P S : Type) : Type := {
  AddHTTP : P -> string -> time.Duration -> list string -> P * error;
  Status : P -> string -> S + string
}.

Section probing_status.

(** [ConnReadTimeout] and [ProbingPrefix] are constants of the package
    declared in other files of it. *)
Variable ConnReadTimeout : time.Duration.
Variable ProbingPrefix : string.

(** [time.Duration.Seconds] returns a [float64]; the conversion belongs to
    Go's standard library and is kept abstract. *)
Context {float64 : Type}.
Variable Seconds : time.Duration -> float64.

Context {S : Type} `{!probing_Status S}.
Context {P : Type} `{!probing_Prober P S}.

Inductive Event : Type :=
| lg_Warn (lg : zap_Logger) (msg : string) (fields : list Field)
| plog_Warningf (format : string) (args : list Arg)
| plog_Errorf (format : string) (args : list Arg)
| rttSec_Observe (label : string) (v : float64)
| time_After (d : time.Duration)
| go_monitorProbingStatus (lg : option zap_Logger) (s : S) (id : string).

(** *** Package variables *)

Definition proberInterval : time.Duration := time.sub ConnReadTimeout time.Second.
Definition statusMonitoringInterval : time.Duration := time.mul 30%Z time.Second.
Definition statusErrorInterval : time.Duration := time.mul 5%Z time.Second.

(** *** [addPeerToProber] *)

(** [hus := make([]string, len(us))] followed by the loop
    [for i := range us { hus[i] = us[i] + ProbingPrefix }].  Every index
    the loop visits is in range of both slices. *)
Definition probe_urls (us : list string) : list string :=
  foldl (fun hus i => <[i := default "" (us !! i) +:+ ProbingPrefix]> hus)
        (replicate (length us) "")
        (seq 0 (length us)).

(** The function has no result: the model returns the prober after the
    call and the events of the call. *)
Definition addPeerToProber (lg : option zap_Logger) (p : P) (id : string)
    (us : list string) : P * list Event :=
  let hus := probe_urls us in
  let '(p', _) := AddHTTP p id proberInterval hus in
  match Status p' id with
  | inr err =>
      (p',
       [match lg with
        | Some l => lg_Warn l "failed to add peer into prober"
                      [zap_String "remote-peer-id" id]
        | None => plog_Errorf "failed to add peer %s into prober" [arg_string id]
        end])
  | inl s => (p', [go_monitorProbingStatus lg s id])
  end.

(** *** [monitorProbingStatus] *)

(** The body of [case <-time.After(interval):], run on the contents [s] of
    the status handle.  It returns the value left in [interval] and the
    events emitted. *)
Definition monitor_tick (lg : option zap_Logger) (s : S) (id : string)
    : time.Duration * list Event :=
  let '(interval, unhealthy) :=
    if negb (Health s) then
      (statusErrorInterval,
       [match lg with
        | Some l => lg_Warn l "prober detected unhealthy status"
                      [zap_String "remote-peer-id" id;
                       zap_Duration "rtt" (SRTT s);
                       zap_Error (Err s)]
        | None => plog_Warningf "health check for peer %s could not connect: %v"
                    [arg_string id; arg_error (Err s)]
        end])
    else (statusMonitoringInterval, []) in
  let drift :=
    if (time.Second <? ClockDiff s)%Z then
      [match lg with
       | Some l => lg_Warn l "prober found high clock drift"
                     [zap_String "remote-peer-id" id;
                      zap_Duration "clock-drift" (SRTT s);
                      zap_Duration "rtt" (ClockDiff s);
                      zap_Error (Err s)]
       | None => plog_Warningf
                   "the clock difference against peer %s is too high [%v > %v]"
                   [arg_string id; arg_Duration (ClockDiff s);
                    arg_Duration time.Second]
       end]
    else [] in
  (interval, unhealthy ++ drift ++ [rttSec_Observe id (Seconds (SRTT s))]).

(** What one [select] of the loop receives: the timer fired, with the
    contents of the status handle at that moment, or the stop channel. *)
Inductive selected : Type :=
| timer_fired (s : S)
| stop_notified.

(** Where the goroutine is once the receptions have been consumed: blocked
    in [select] on a timer of the given duration, or returned. *)
Inductive task_state : Type :=
| waiting (interval : time.Duration)
| returned.

(** The [for { select { ... } }] loop from a given value of [interval].
    Each entry to [select] first evaluates [time.After(interval)]. *)
Fixpoint monitor_loop (lg : option zap_Logger) (id : string)
    (interval : time.Duration) (sel : list selected)
    : task_state * list Event :=
  match sel with
  | [] => (waiting interval, [time_After interval])
  | stop_notified :: _ => (returned, [time_After interval])
  | timer_fired s :: rest =>
      let '(interval', evs) := monitor_tick lg s id in
      let '(st, evs') := monitor_loop lg id interval' rest in
      (st, time_After interval :: evs ++ evs')
  end.

(** [interval := statusErrorInterval], then the loop. *)
Definition monitorProbingStatus (lg : option zap_Logger) (id : string)
    (sel : list selected) : task_state * list Event :=
  monitor_loop lg id statusErrorInterval sel.

(** The readings of the iterations the loop runs through: those received
    before the first stop. *)
Fixpoint iterations (sel : list selected) : list S :=
  match sel with
  | timer_fired s :: rest => s :: iterations rest
  | _ => []
  end.

(** *** Reading the events *)

Definition event_level (e : Event) : option Level :=
  match e with
  | lg_Warn _ _ _ | plog_Warningf _ _ => Some WarnLevel
  | plog_Errorf _ _ => Some ErrorLevel
  | _ => None
  end.

(** The two forms of the clock-drift warning. *)
Definition is_drift_warning (e : Event) : bool :=
  match e with
  | lg_Warn _ msg _ => bool_decide (msg = "prober found high clock drift")
  | plog_Warningf format _ =>
      bool_decide
        (format = "the clock difference against peer %s is too high [%v > %v]")
  | _ => false
  end.

Definition is_log (e : Event) : bool :=
  match e with
  | lg_Warn _ _ _ | plog_Warningf _ _ | plog_Errorf _ _ => true
  | _ => false
  end.

Definition is_observation (e : Event) : bool :=
  match e with rttSec_Observe _ _ => true | _ => false end.

Definition is_spawn (e : Event) : bool :=
  match e with go_monitorProbingStatus _ _ _ => true | _ => false end.

Definition count (f : Event -> bool) (evs : list Event) : nat :=
  length (filter (fun e => f e = true) evs).

(** The two forms of the unhealthy-status warning. *)
Definition is_unhealthy_warning (e : Event) : bool :=
  match e with
  | lg_Warn _ msg _ => bool_decide (msg = "prober detected unhealthy status")
  | plog_Warningf format _ =>
      bool_decide (format = "health check for peer %s could not connect: %v")
  | _ => false
  end.

Definition is_timer (e : Event) : bool :=
  match e with time_After _ => true | _ => false end.

(** Whether a log call goes to the [zap] logger [l]. *)
Definition logged_through (l : zap_Logger) (e : Event) : bool :=
  match e with
  | lg_Warn l' _ _ => bool_decide (l' = l)
  | _ => false
  end.

Definition is_plog (e : Event) : bool :=
  match e with
  | plog_Warningf _ _ | plog_Errorf _ _ => true
  | _ => false
  end.

(** Whether an event names the peer [id]: the field [remote-peer-id] of a
    structured entry, the first argument of a [plog] format, the label of
    an observation, the identifier given to the goroutine.  A timer names
    no peer. *)
Definition names_peer (id : string) (e : Event) : bool :=
  match e with
  | lg_Warn _ _ fields => bool_decide (zap_String "remote-peer-id" id ∈ fields)
  | plog_Warningf _ args | plog_Errorf _ args =>
      bool_decide (head args = Some (arg_string id))
  | rttSec_Observe label _ => bool_decide (label = id)
  | go_monitorProbingStatus _ _ id' => bool_decide (id' = id)
  | time_After _ => false
  end.

End probing_status.

(** *** Instances used in the examples *)

(** The readings of a status handle as a record. *)
Record status : Type := mkStatus {
  health : bool;
  srtt : time.Duration;
  err : error;
  clockdiff : time.Duration
}.

#[global] Instance status_Status : probing_Status status :=
  {| Health := health; SRTT := srtt; Err := err; ClockDiff := clockdiff |}.

(** The prober of the vendored package [github.com/xiang90/probing], as
    far as [AddHTTP], [Remove] and [Status] keep its table of targets.
    [AddHTTP] refuses an identifier it already has and registers any other,
    whatever the list of endpoints, the empty list included; [Remove]
    deletes a target; [Status] fails for an identifier without a target,
    and a fresh handle reads as the zero value. *)
Record prober : Type := mkProber {
  targets : gmap string (time.Duration * list string)
}.

Definition prober_lookup (p : prober) (id : string)
    : option (time.Duration * list string) :=
  targets p !! id.

Definition prober_AddHTTP (p : prober) (id : string) (d : time.Duration)
    (endpoints : list string) : prober * error :=
  match prober_lookup p id with
  | Some _ => (p, Some "probing: id exists")
  | None => (mkProber (<[id := (d, endpoints)]> (targets p)), None)
  end.

Definition prober_Remove (p : prober) (id : string) : prober * error :=
  match prober_lookup p id with
  | Some _ => (mkProber (delete id (targets p)), None)
  | None => (p, Some "probing: id not found")
  end.

Definition prober_Status (p : prober) (id : string) : status + string :=
  match prober_lookup p id with
  | Some _ => inl (mkStatus false 0%Z None 0%Z)
  | None => inr "probing: id not found"
  end.

#[global] Instance prober_Prober : probing_Prober prober status :=
  {| AddHTTP := prober_AddHTTP; Status := prober_Status |}.

(** The same prober as [addPeerToProber] meets it when another goroutine
    calls [Remove] with the identifier being registered between the call of
    [AddHTTP] and the call of [Status]: the removal is run at the end of
    [AddHTTP]. *)
Record prober_removing : Type := mkRemoving { removing_prober : prober }.

Definition removing_AddHTTP (r : prober_removing) (id : string)
    (d : time.Duration) (endpoints : list string) : prober_removing * error :=
  let '(p, e) := prober_AddHTTP (removing_prober r) id d endpoints in
  (mkRemoving (fst (prober_Remove p id)), e).

Definition removing_Status (r : prober_removing) (id : string)
    : status + string :=
  prober_Status (removing_prober r) id.

#[global] Instance removing_Prober : probing_Prober prober_removing status :=
  {| AddHTTP := removing_AddHTTP; Status := removing_Status |}.

(** The exact number of seconds of a duration, as a rational. *)
Definition Seconds_exact (d : time.Duration) : Q := Qmake d 1000000000.

End rafthttp.

(** ** Package [main] of [cmd/geth]: [passwords.go] *)

Module geth.

(** A call either returns or ends the process in [utils.Fatalf], which
    prints its message and exits ("Program exits before this return", as
    the comment in [fetchPasswordFromCLI] has it).  The statements that
    follow a call of [utils.Fatalf] are never run. *)
Inductive outcome (A : Type) : Type :=
| Return (a : A)
| Fatalf (format : string) (args : list string).
Arguments Return {A} a.
Arguments Fatalf {A} format args.

(** [cli.Context], read through [GlobalString] only: the value of each
    flag by name, the empty string for a flag that is not set. *)
Definition cli_Context : Type := string -> string.
Definition GlobalString (ctx : cli_Context) (name : string) : string := ctx name.

Section passwords.

(** [cli.StringFlag] is a comparable struct with a [Name] field; the flags
    are package variables of [cmd/utils]. *)
Context {StringFlag : Type} `{Countable StringFlag}.
Variable Name : StringFlag -> string.
Variables VoteAccountPasswordFlag VoteBlockMakerAccountPasswordFlag
  PasswordFileFlag : StringFlag.
Variables VaultAddrFlag VaultPrefixFlag VaultPasswordNameFlag
  VaultPasswordPathFlag : StringFlag.

(** [for flag, val := range m] visits the entries of [m] in an order the
    runtime chooses: [order] rearranges the entries. *)
Definition range (order : list (StringFlag * string) -> list (StringFlag * string))
    (m : gmap StringFlag string) : list (StringFlag * string) :=
  order (map_to_list m).

(** [make([]string, 3)]: three empty strings. *)
Definition make_strings (n : nat) : list string := replicate n "".

Definition usingVaultPassword
    (order1 order2 : list (StringFlag * string) -> list (StringFlag * string))
    (ctx : cli_Context) : outcome bool :=
  let passwordFlags : gmap StringFlag string :=
    <[PasswordFileFlag := GlobalString ctx (Name PasswordFileFlag)]>
      (<[VoteBlockMakerAccountPasswordFlag :=
           GlobalString ctx (Name VoteBlockMakerAccountPasswordFlag)]>
         (<[VoteAccountPasswordFlag :=
              GlobalString ctx (Name VoteAccountPasswordFlag)]> ∅)) in
  let setPassFlags :=
    foldl (fun acc fv =>
             if bool_decide (snd fv ≠ "") then acc ++ [Name (fst fv)] else acc)
          (make_strings 3) (range order1 passwordFlags) in
  if (0 <? length setPassFlags)%nat then
    if (length setPassFlags =? 1)%nat then Return false
    else
      Fatalf
        "Too many password flags have been set.  Only one of the following should be supplied: %v"
        setPassFlags
  else
    let vaultFlags : gmap StringFlag string :=
      <[VaultPasswordPathFlag := GlobalString ctx (Name VaultPasswordPathFlag)]>
        (<[VaultPasswordNameFlag := GlobalString ctx (Name VaultPasswordNameFlag)]>
           (<[VaultPrefixFlag := GlobalString ctx (Name VaultPrefixFlag)]>
              (<[VaultAddrFlag := GlobalString ctx (Name VaultAddrFlag)]> ∅))) in
    let missingFlags :=
      foldl (fun acc fv =>
               if bool_decide (snd fv = "") then acc ++ [Name (fst fv)] else acc)
            (make_strings 3) (range order2 vaultFlags) in
    if (0 <? length missingFlags)%nat then
      Fatalf
        "No account password specified, but missing flags required for retrieving password from Vault.  Please supply: %v"
        missingFlags
    else Return true.

(** *** [fetchPasswordFromCLI] *)

Definition fetchPasswordFromCLI (ctx : cli_Context) : outcome (string * error) :=
  let accountPass := GlobalString ctx (Name VoteAccountPasswordFlag) in
  let blockPass := GlobalString ctx (Name VoteBlockMakerAccountPasswordFlag) in
  let filePass := GlobalString ctx (Name PasswordFileFlag) in
  if bool_decide (accountPass ≠ "") then Return (accountPass, None)
  else if bool_decide (blockPass ≠ "") then Return (blockPass, None)
  else if bool_decide (filePass ≠ "") then Return (filePass, None)
  else
    Fatalf
      "Looked for password via fetchPasswordFromCLI, but no password arguments found."
      [].

End passwords.

(** *** Calls that leave the file

    Besides returning and [utils.Fatalf], a call may end the process in
    [log.Fatal], which prints the error and exits, or panic. *)
Inductive exec (A : Type) : Type :=
| Ran (o : outcome A)
| log_Fatal (err : string)
| panic (msg : string).
Arguments Ran {A} o.
Arguments log_Fatal {A} err.
Arguments panic {A} msg.

#[global] Instance exec_ret : MRet exec := fun A a => Ran (Return a).

#[global] Instance exec_bind : MBind exec := fun A B k m =>
  match m with
  | Ran (Return a) => k a
  | Ran (Fatalf format args) => Ran (Fatalf format args)
  | log_Fatal err => log_Fatal err
  | panic msg => panic msg
  end.

(** A value of type [interface{}]: a string, or something else. *)
Inductive iface : Type :=
| iface_string (s : string)
| iface_other (repr : string).

(** [vaultAPI.SecretAuth] and [vaultAPI.Secret], with the fields the file
    reads.  A [*Secret] and its [Auth] may be nil; a nil [Data] map reads
    as the empty map. *)
Record SecretAuth : Type := mkSecretAuth { ClientToken : string }.
Record Secret : Type := mkSecret {
  Auth : option SecretAuth;
  Data : gmap string iface
}.

(** [ec2metadata.EC2IAMInfo], with the field the file reads. *)
Record EC2IAMInfo : Type := mkEC2IAMInfo { InstanceProfileArn : string }.

(** [strings.Split(s, sep)] for a separator of one byte: the pieces of [s]
    between the occurrences of [sep], one more than the occurrences. *)
Fixpoint strings_Split (s : string) (sep : Stdlib.Strings.Ascii.ascii)
    : list string :=
  match s with
  | EmptyString => [""]
  | String c s' =>
      if Stdlib.Strings.Ascii.eqb c sep then "" :: strings_Split s' sep
      else match strings_Split s' sep with
           | piece :: pieces => String c piece :: pieces
           | [] => [String c ""]
           end
  end.

(** [strings.Join(pieces, sep)] for a separator of one byte. *)
Fixpoint strings_Join (pieces : list string) (sep : Stdlib.Strings.Ascii.ascii)
    : string :=
  match pieces with
  | [] => ""
  | [piece] => piece
  | piece :: rest => piece +:+ String sep (strings_Join rest sep)
  end.

Section vault.

Context {StringFlag : Type} `{Countable StringFlag}.
Variable Name : StringFlag -> string.
Variables VoteAccountPasswordFlag VoteBlockMakerAccountPasswordFlag
  PasswordFileFlag : StringFlag.
Variables VaultAddrFlag VaultPrefixFlag VaultPasswordNameFlag
  VaultPasswordPathFlag : StringFlag.

(** The Vault and AWS client libraries.  [Client] is a [*vaultAPI.Client],
    nil included; [Config] a [*vaultAPI.Config] with its [Address] field
    apart.  Every call may return, exit or panic. *)
Context {ConfigRest : Type}.
Record Config : Type := mkConfig { Address : string; rest : ConfigRest }.
Variable DefaultConfig : Config.
Context {Client : Type}.
Variable NewClient : Config -> exec (Client * error).
Variable SetToken : Client -> string -> exec Client.
Variable Logical_Read : Client -> string -> exec (option Secret * error).
Variable Logical_Write :
  Client -> string -> gmap string iface -> exec (option Secret * error).
Variable GenerateLoginData :
  string -> string -> string -> string -> exec (option (gmap string iface) * error).

(** [ec2metadata.New(session.New()).IAMInfo()]. *)
Variable IAMInfo : exec (EC2IAMInfo * error).

(** *** [getIAMRole] *)

Definition getIAMRole : exec (string * error) :=
  '(iam, err) ← IAMInfo;
  match err with
  | Some e => mret ("", Some e)
  | None =>
      let profile := InstanceProfileArn iam in
      let splitArn := strings_Split profile "/"%char in
      if (length splitArn <? 2)%nat then
        mret ("", Some "no / character found in instance profile ARN")
      else
        match splitArn !! 1%nat with
        | Some role => mret (role, None)
        | None => panic "index out of range"
        end
  end.

(** *** [loginAws] *)

Definition loginAws (v : Client) : exec (string * error) :=
  '(loginData, err) ← GenerateLoginData "" "" "" "";
  match err, loginData with
  | Some e, _ => mret ("", Some e)
  | None, None => mret ("", Some "got nil response from GenerateLoginData")
  | None, Some loginData =>
      '(role, err) ← getIAMRole;
      match err with
      | Some e => mret ("", Some e)
      | None =>
          let loginData := <["role" := iface_string role]> loginData in
          let path := "auth/aws/login" in
          '(secret, err) ← Logical_Write v path loginData;
          match err, secret with
          | Some e, _ => mret ("", Some e)
          | None, None =>
              mret ("", Some "empty response from credential provider")
          | None, Some secret =>
              match Auth secret with
              | None => mret ("", Some "auth secret has no auth data")
              | Some auth => mret (ClientToken auth, None)
              end
          end
      end
  end.

(** *** [fetchPasswordFromVault] and [fetchPassword] *)

Definition fetchPasswordFromVault
    (order1 order2 : list (StringFlag * string) -> list (StringFlag * string))
    (ctx : cli_Context) : exec (string * error) :=
  b ← Ran (usingVaultPassword Name VoteAccountPasswordFlag
             VoteBlockMakerAccountPasswordFlag PasswordFileFlag VaultAddrFlag
             VaultPrefixFlag VaultPasswordNameFlag VaultPasswordPathFlag
             order1 order2 ctx);
  if b : bool then
    let vaultConfig :=
      mkConfig (GlobalString ctx (Name VaultAddrFlag)) (rest DefaultConfig) in
    '(vaultClient, _) ← NewClient vaultConfig;
    '(token, err) ← loginAws vaultClient;
    match err with
    | Some e => log_Fatal e
    | None =>
        vaultClient ← SetToken vaultClient token;
        '(secret, err) ←
          Logical_Read vaultClient
            ((("/" +:+ GlobalString ctx (Name VaultPrefixFlag)) +:+ "/")
               +:+ GlobalString ctx (Name VaultPasswordPathFlag));
        match err, secret with
        | Some e, _ => log_Fatal e
        | None, None => panic "invalid memory address or nil pointer dereference"
        | None, Some secret =>
            match Data secret !! GlobalString ctx (Name VaultPasswordNameFlag) with
            | None =>
                Ran (Fatalf
                       "fetchPasswordFromVault found a secret at specified path, but secret did not contain specified key name."
                       [])
            | Some (iface_string password) => mret (password, None)
            | Some (iface_other _) =>
                panic "interface conversion: interface {} is not string"
            end
        end
    end
  else
    Ran (Fatalf
           "fetchPasswordFromVault called even though CLI got a password argument."
           []).

Definition fetchPassword
    (order1 order2 order3 order4
       : list (StringFlag * string) -> list (StringFlag * string))
    (ctx : cli_Context) : exec (string * error) :=
  b ← Ran (usingVaultPassword Name VoteAccountPasswordFlag
             VoteBlockMakerAccountPasswordFlag PasswordFileFlag VaultAddrFlag
             VaultPrefixFlag VaultPasswordNameFlag VaultPasswordPathFlag
             order1 order2 ctx);
  if b : bool then fetchPasswordFromVault order3 order4 ctx
  else
    Ran (fetchPasswordFromCLI Name VoteAccountPasswordFlag
           VoteBlockMakerAccountPasswordFlag PasswordFileFlag ctx).

End vault.

End geth.

(** * Properties *)

(** ** Durations *)

Lemma wrap64_id z :
  (time.min_int64 <= z <= time.max_int64)%Z -> time.wrap64 z = z.
Proof.
  unfold time.wrap64, time.min_int64, time.max_int64. intros Hz.
  rewrite Z.mod_small; lia.
Qed.

Lemma statusErrorInterval_value :
  rafthttp.statusErrorInterval = (5 * time.Second)%Z.
Proof. reflexivity. Qed.

Lemma statusMonitoringInterval_value :
  rafthttp.statusMonitoringInterval = (30 * time.Second)%Z.
Proof. reflexivity. Qed.

(** ** [probing_status.go] *)

(** Without a bound on [ConnReadTimeout] the subtraction wraps around: at
    the least [int64] the result is above [ConnReadTimeout]. *)
Remark proberInterval_wraps :
  (rafthttp.proberInterval time.min_int64 > time.min_int64)%Z.
Proof. reflexivity. Qed.

Section monitor_properties.

Import rafthttp.

Context {float64 : Type}.
Variable Seconds : time.Duration -> float64.
Context {S : Type} `{!probing_Status S}.

Local Abbreviation Event := (Event (float64 := float64) (S := S)).
Local Abbreviation monitor_tick := (monitor_tick Seconds).
Local Abbreviation monitor_loop := (monitor_loop Seconds).
Local Abbreviation monitorProbingStatus := (monitorProbingStatus Seconds).

(** *** Counting events *)

Lemma count_app (f : Event -> bool) (l1 l2 : list Event) :
  count f (l1 ++ l2) = (count f l1 + count f l2)%nat.
Proof. unfold count. rewrite filter_app, length_app. reflexivity. Qed.

Lemma count_cons (f : Event -> bool) (e : Event) (l : list Event) :
  count f (e :: l) = ((if f e then 1 else 0) + count f l)%nat.
Proof.
  unfold count. destruct (f e) eqn:Hf.
  - rewrite filter_cons_True by exact Hf. reflexivity.
  - rewrite filter_cons_False by (rewrite Hf; discriminate). reflexivity.
Qed.

Lemma count_nil (f : Event -> bool) : count f [] = 0%nat.
Proof. reflexivity. Qed.

(** *** One iteration *)

Lemma monitor_tick_interval lg s id :
  fst (monitor_tick lg s id)
  = if Health s then statusMonitoringInterval else statusErrorInterval.
Proof.
  unfold rafthttp.monitor_tick. destruct (Health s); reflexivity.
Qed.

Lemma monitor_tick_interval_cases lg s id :
  fst (monitor_tick lg s id) = statusErrorInterval
  \/ fst (monitor_tick lg s id) = statusMonitoringInterval.
Proof. rewrite monitor_tick_interval. destruct (Health s); auto. Qed.

Lemma monitor_tick_no_timer lg s id d :
  time_After d ∉ snd (monitor_tick lg s id).
Proof.
  unfold rafthttp.monitor_tick.
  destruct (Health s), (time.Second <? ClockDiff s)%Z, lg; cbn;
    rewrite ?elem_of_cons, elem_of_nil; intuition discriminate.
Qed.

(** C1 (amended): an iteration emits exactly one clock-drift warning when
    the signed [ClockDiff] reading is greater than one second, and none
    otherwise, whatever [Health] reads and whichever logger is in use.  A
    skew below minus one second is therefore not reported. *)
Theorem monitor_tick_drift_warning lg s id :
  count is_drift_warning (snd (monitor_tick lg s id))
  = if (time.Second <? ClockDiff s)%Z then 1%nat else 0%nat.
Proof.
  unfold rafthttp.monitor_tick.
  destruct (Health s), (time.Second <? ClockDiff s)%Z, lg; reflexivity.
Qed.

Lemma monitor_tick_observations lg s id :
  filter (fun e => is_observation e = true) (snd (monitor_tick lg s id))
  = [rttSec_Observe id (Seconds (SRTT s))]
  /\ count is_observation (snd (monitor_tick lg s id)) = 1%nat.
Proof.
  unfold count, rafthttp.monitor_tick.
  destruct (Health s), (time.Second <? ClockDiff s)%Z, lg; split; reflexivity.
Qed.

(** *** The loop *)

Lemma monitor_loop_cons_timer lg id i s rest :
  monitor_loop lg id i (timer_fired s :: rest)
  = (fst (monitor_loop lg id (fst (monitor_tick lg s id)) rest),
     time_After i :: snd (monitor_tick lg s id)
       ++ snd (monitor_loop lg id (fst (monitor_tick lg s id)) rest)).
Proof.
  cbn [rafthttp.monitor_loop].
  destruct (monitor_tick lg s id) as [i' evs]. cbn [fst snd].
  destruct (monitor_loop lg id i' rest). reflexivity.
Qed.

Lemma monitor_loop_stop lg id i pre post :
  monitor_loop lg id i (pre ++ stop_notified :: post)
  = (returned, snd (monitor_loop lg id i pre)).
Proof.
  revert i. induction pre as [|[s|] pre IH]; intros i.
  - reflexivity.
  - rewrite <- app_comm_cons, !monitor_loop_cons_timer, IH. reflexivity.
  - reflexivity.
Qed.

Lemma monitor_loop_returned lg id i sel :
  fst (monitor_loop lg id i sel) = returned <-> stop_notified ∈ sel.
Proof.
  revert i. induction sel as [|[s|] sel IH]; intros i.
  - cbn. rewrite elem_of_nil. split; [discriminate | tauto].
  - rewrite monitor_loop_cons_timer, elem_of_cons. cbn [fst].
    rewrite IH. split; [auto | intros [Heq | Hin]; [discriminate | exact Hin]].
  - cbn. rewrite elem_of_cons. split; auto.
Qed.

Lemma monitor_loop_snoc lg id i pre s :
  stop_notified ∉ pre ->
  monitor_loop lg id i (pre ++ [timer_fired s])
  = (waiting (fst (monitor_tick lg s id)),
     snd (monitor_loop lg id i pre) ++ snd (monitor_tick lg s id)
       ++ [time_After (fst (monitor_tick lg s id))]).
Proof.
  revert i. induction pre as [|[s'|] pre IH]; intros i Hpre.
  - cbn [app]. rewrite monitor_loop_cons_timer. reflexivity.
  - rewrite <- app_comm_cons, !monitor_loop_cons_timer.
    rewrite IH by (intros Hin; apply Hpre; right; exact Hin).
    cbn [fst snd app]. rewrite (app_assoc (snd (monitor_tick lg s' id))).
    reflexivity.
  - exfalso. apply Hpre. left.
Qed.

(** The whole trace: the first wait, then each iteration followed by the
    wait it leads to. *)
Lemma monitor_loop_events lg id i sel :
  snd (monitor_loop lg id i sel)
  = time_After i
    :: flat_map (fun s => snd (monitor_tick lg s id)
                          ++ [time_After (fst (monitor_tick lg s id))])
         (iterations sel).
Proof.
  revert i. induction sel as [|[s|] sel IH]; intros i.
  - reflexivity.
  - rewrite monitor_loop_cons_timer. cbn [snd iterations flat_map].
    rewrite IH, <- app_assoc. reflexivity.
  - reflexivity.
Qed.

Lemma monitor_loop_timers lg id i sel d :
  i = statusErrorInterval \/ i = statusMonitoringInterval ->
  time_After d ∈ snd (monitor_loop lg id i sel) ->
  d = statusErrorInterval \/ d = statusMonitoringInterval.
Proof.
  revert i. induction sel as [|[s|] sel IH]; intros i Hi.
  - cbn. rewrite list_elem_of_singleton. intros [= ->]. exact Hi.
  - rewrite monitor_loop_cons_timer. cbn [snd].
    rewrite elem_of_cons, elem_of_app. intros [[= ->] | [Hin | Hin]].
    + exact Hi.
    + exfalso. exact (monitor_tick_no_timer _ _ _ _ Hin).
    + exact (IH _ (monitor_tick_interval_cases lg s id) Hin).
  - cbn. rewrite list_elem_of_singleton. intros [= ->]. exact Hi.
Qed.

Lemma monitor_loop_waiting lg id i sel d :
  i = statusErrorInterval \/ i = statusMonitoringInterval ->
  fst (monitor_loop lg id i sel) = waiting d ->
  d = statusErrorInterval \/ d = statusMonitoringInterval.
Proof.
  revert i. induction sel as [|[s|] sel IH]; intros i Hi.
  - cbn. intros [= <-]. exact Hi.
  - rewrite monitor_loop_cons_timer. cbn [fst].
    exact (IH _ (monitor_tick_interval_cases lg s id)).
  - cbn. discriminate.
Qed.

(** C2: an iteration that reads [Health] false leaves [interval] at
    [statusErrorInterval], one that reads it true at
    [statusMonitoringInterval]; the next wait of the loop is on that value;
    and no wait of the loop is ever on another value. *)
Theorem monitor_next_interval lg id s :
  let next :=
    if Health s then statusMonitoringInterval else statusErrorInterval in
  fst (monitor_tick lg s id) = next
  /\ (forall pre, stop_notified ∉ pre ->
        monitorProbingStatus lg id (pre ++ [timer_fired s])
        = (waiting next,
           snd (monitorProbingStatus lg id pre)
             ++ snd (monitor_tick lg s id) ++ [time_After next]))
  /\ (forall sel d,
        time_After d ∈ snd (monitorProbingStatus lg id sel)
        \/ fst (monitorProbingStatus lg id sel) = waiting d ->
        d = statusErrorInterval \/ d = statusMonitoringInterval).
Proof.
  cbn zeta. split; [apply monitor_tick_interval | split].
  - intros pre Hpre. unfold rafthttp.monitorProbingStatus.
    rewrite monitor_loop_snoc by exact Hpre.
    rewrite monitor_tick_interval. reflexivity.
  - intros sel d [Hin | Hst].
    + exact (monitor_loop_timers lg id _ sel d (or_introl eq_refl) Hin).
    + exact (monitor_loop_waiting lg id _ sel d (or_introl eq_refl) Hst).
Qed.

(** C3: whatever the loop receives, its first event is the wait on
    [statusErrorInterval], five seconds: the first reading of the status is
    made after that wait, whatever the health of the peer. *)
Theorem monitor_first_wait lg id sel :
  head (snd (monitorProbingStatus lg id sel))
  = Some (time_After statusErrorInterval)
  /\ monitorProbingStatus lg id []
     = (waiting statusErrorInterval, [time_After statusErrorInterval])
  /\ (forall s rest,
        exists later,
          snd (monitorProbingStatus lg id (timer_fired s :: rest))
          = time_After statusErrorInterval
            :: snd (monitor_tick lg s id) ++ later)
  /\ statusErrorInterval = (5 * time.Second)%Z.
Proof.
  unfold rafthttp.monitorProbingStatus.
  rewrite monitor_loop_events. repeat split; try reflexivity.
  intros s rest. rewrite monitor_loop_cons_timer. cbn [snd]. eauto.
Qed.

(** C4: the loop has returned exactly when a stop notification was
    received; a stop received in any wait, the first one included, makes it
    return; and what it emitted is what it had emitted before that wait
    ended: no log call and no observation follows, whatever arrives
    later. *)
Theorem monitor_stop lg id :
  (forall sel,
     fst (monitorProbingStatus lg id sel) = returned <-> stop_notified ∈ sel)
  /\ (forall pre post,
        monitorProbingStatus lg id (pre ++ stop_notified :: post)
        = (returned, snd (monitorProbingStatus lg id pre)))
  /\ (forall pre post,
        count is_log (snd (monitorProbingStatus lg id (pre ++ stop_notified :: post)))
        = count is_log (snd (monitorProbingStatus lg id pre))
        /\ count is_observation
             (snd (monitorProbingStatus lg id (pre ++ stop_notified :: post)))
           = count is_observation (snd (monitorProbingStatus lg id pre))).
Proof.
  unfold rafthttp.monitorProbingStatus. split; [| split].
  - intros sel. apply monitor_loop_returned.
  - intros pre post. apply monitor_loop_stop.
  - intros pre post. rewrite monitor_loop_stop. split; reflexivity.
Qed.

(** The observations of a run: one for each iteration, in order. *)
Lemma monitor_loop_observations lg id i sel :
  filter (fun e => is_observation e = true) (snd (monitor_loop lg id i sel))
  = (fun s => rttSec_Observe id (Seconds (SRTT s))) <$> iterations sel.
Proof.
  rewrite monitor_loop_events.
  rewrite filter_cons_False by (cbn; discriminate).
  induction (iterations sel) as [|s l IH]; [reflexivity |].
  cbn [flat_map]. rewrite !filter_app, IH.
  rewrite (proj1 (monitor_tick_observations lg s id)).
  rewrite filter_cons_False by (cbn; discriminate). reflexivity.
Qed.

(** C8: every iteration, healthy or not, records exactly one observation
    in [rttSec], labelled with the peer identifier and carrying the [SRTT]
    reading converted to seconds; over a run, the observations recorded are
    those of the iterations, one each and in order. *)
Theorem monitor_observation lg id :
  (forall s,
     filter (fun e => is_observation e = true) (snd (monitor_tick lg s id))
     = [rttSec_Observe id (Seconds (SRTT s))]
     /\ count is_observation (snd (monitor_tick lg s id)) = 1%nat)
  /\ (forall sel,
        filter (fun e => is_observation e = true)
          (snd (monitorProbingStatus lg id sel))
        = (fun s => rttSec_Observe id (Seconds (SRTT s))) <$> iterations sel).
Proof.
  split.
  - intros s. apply monitor_tick_observations.
  - intros sel. apply monitor_loop_observations.
Qed.

(** The fields of the structured clock-drift warning, as the code fills
    them. *)
Lemma monitor_tick_drift_fields l s id :
  (time.Second < ClockDiff s)%Z ->
  lg_Warn l "prober found high clock drift"
    [zap_String "remote-peer-id" id;
     zap_Duration "clock-drift" (SRTT s);
     zap_Duration "rtt" (ClockDiff s);
     zap_Error (Err s)]
  ∈ snd (monitor_tick (Some l) s id).
Proof.
  intros Hd. unfold rafthttp.monitor_tick.
  apply Z.ltb_lt in Hd. rewrite Hd.
  destruct (Health s); cbn; rewrite !elem_of_cons; auto.
Qed.

End monitor_properties.

(** *** Registration *)

Section registration_properties.

Import rafthttp.

Variable ConnReadTimeout : time.Duration.
Variable ProbingPrefix : string.
Context {float64 S P : Type} `{!probing_Prober P S}.

Local Abbreviation addPeerToProber :=
  (addPeerToProber ConnReadTimeout ProbingPrefix (float64 := float64)).
Local Abbreviation probe_urls := (probe_urls ProbingPrefix).
Local Abbreviation proberInterval := (proberInterval ConnReadTimeout).

Lemma probe_urls_prefix (us : list string) (n : nat) :
  (n <= length us)%nat ->
  foldl (fun hus i => <[i := default "" (us !! i) +:+ ProbingPrefix]> hus)
        (replicate (length us) "") (seq 0 n)
  = ((fun u => u +:+ ProbingPrefix) <$> take n us)
      ++ replicate (length us - n) "".
Proof.
  induction n as [|n IH]; intros Hn.
  - cbn. rewrite Nat.sub_0_r. reflexivity.
  - rewrite seq_S, foldl_app, IH by lia. cbn [foldl Nat.add].
    destruct (lookup_lt_is_Some_2 us n) as [u Hu]; [lia |].
    rewrite Hu, (take_S_r us n u Hu), fmap_app. cbn [default fmap list_fmap].
    replace (length us - n)%nat with (Datatypes.S (length us - Datatypes.S n)) by lia.
    cbn [replicate].
    assert (Hlen : length ((fun u => u +:+ ProbingPrefix) <$> take n us) = n).
    { rewrite length_fmap, length_take. lia. }
    rewrite <- (Nat.add_0_r n) at 1. rewrite <- Hlen at 1.
    rewrite insert_app_r. cbn. rewrite <- app_assoc. reflexivity.
Qed.

Lemma probe_urls_map (us : list string) :
  probe_urls us = (fun u => u +:+ ProbingPrefix) <$> us.
Proof.
  unfold rafthttp.probe_urls. rewrite probe_urls_prefix by lia.
  rewrite Nat.sub_diag, firstn_all, app_nil_r. reflexivity.
Qed.

(** C7: the list handed to [AddHTTP] has the length of the list of base
    addresses, and its i-th element is the i-th base address followed by
    [ProbingPrefix]. *)
Theorem addPeerToProber_urls lg (p : P) id (us : list string) :
  fst (addPeerToProber lg p id us)
  = fst (AddHTTP p id proberInterval (probe_urls us))
  /\ length (probe_urls us) = length us
  /\ (forall i, probe_urls us !! i = (fun u => u +:+ ProbingPrefix) <$> us !! i)
  /\ probe_urls us = (fun u => u +:+ ProbingPrefix) <$> us.
Proof.
  split; [| split; [| split]].
  - unfold rafthttp.addPeerToProber.
    destruct (AddHTTP p id proberInterval (probe_urls us)) as [p' e].
    cbn [fst]. destruct (Status p' id); reflexivity.
  - rewrite probe_urls_map. apply length_fmap.
  - intros i. rewrite probe_urls_map. apply list_lookup_fmap.
  - apply probe_urls_map.
Qed.



(** C9: provided [ConnReadTimeout] is an [int64] from which a second can be
    subtracted without wrapping, [proberInterval] is smaller than
    [ConnReadTimeout], by exactly one second. *)
Theorem proberInterval_below_ConnReadTimeout :
  (time.min_int64 + time.Second <= ConnReadTimeout <= time.max_int64)%Z ->
  (proberInterval < ConnReadTimeout)%Z
  /\ (ConnReadTimeout - proberInterval = time.Second)%Z
  /\ (time.Second <= ConnReadTimeout - proberInterval)%Z.
Proof.
  intros Hc. unfold rafthttp.proberInterval, time.sub.
  rewrite wrap64_id.
  - unfold time.Second, time.Nanosecond. lia.
  - unfold time.min_int64, time.max_int64, time.Second, time.Nanosecond in *.
    lia.
Qed.

End registration_properties.

(** *** Examples on the instances *)

Import rafthttp.
Local Open Scope Z_scope.

(** C1, as stated, fails: a reading of minus two seconds exceeds one second
    in absolute value, and the iteration emits no clock-drift warning. *)
Lemma drift_warning_negative_skew_counterexample :
  ~ (forall (lg : option zap_Logger) (s : status) (id : string),
       (time.Second < Z.abs (ClockDiff s))%Z ->
       count is_drift_warning (snd (monitor_tick Seconds_exact lg s id)) = 1%nat).
Proof.
  intros Hclaim.
  specialize (Hclaim None (mkStatus true 12000000 None (-2000000000)) "P1").
  discriminate Hclaim. reflexivity.
Qed.





(** A registration with no address at all starts the monitor. *)
Example addPeerToProber_empty_list :
  addPeerToProber (5 * time.Second) "/raft/probing" (float64 := Q) None
    (mkProber ∅) "P1" []
  = (mkProber {["P1" := (4 * time.Second, [])]},
     [go_monitorProbingStatus None (mkStatus false 0 None 0) "P1"]).
Proof. vm_compute. reflexivity. Qed.

Lemma monitor_next_interval_witness :
  let first := mkStatus false 0 (Some "dial timeout") 0 in
  let second := mkStatus true 12000000 None 50000000 in
  (stop_notified ∉ [timer_fired first])
  /\ (fst (monitorProbingStatus Seconds_exact None "P1"
             ([timer_fired first] ++ [timer_fired second]))
      = waiting statusMonitoringInterval).
Proof.
  cbn zeta.
  assert (Hpre : stop_notified
                 ∉ [timer_fired (mkStatus false 0 (Some "dial timeout") 0)]).
  { rewrite list_elem_of_singleton. discriminate. }
  split; [exact Hpre |].
  rewrite (proj1 (proj2 (monitor_next_interval Seconds_exact None "P1"
                           (mkStatus true 12000000 None 50000000))) _ Hpre).
  reflexivity.
Defined.

Lemma proberInterval_below_ConnReadTimeout_witness :
  time.min_int64 + time.Second <= 5 * time.Second <= time.max_int64
  /\ proberInterval (5 * time.Second) < 5 * time.Second.
Proof.
  assert (H : time.min_int64 + time.Second <= 5 * time.Second <= time.max_int64).
  { unfold time.min_int64, time.max_int64, time.Second, time.Nanosecond. lia. }
  split; [exact H |].
  exact (proj1 (proberInterval_below_ConnReadTimeout (5 * time.Second) H)).
Defined.

(** C6: on a healthy reading with a smoothed round-trip time of 12ms and a
    clock difference of 2s, the structured warning carries the round-trip
    time in the field named clock-drift and the clock difference in the
    field named rtt. *)
Example drift_warning_fields_swapped :
  monitor_tick Seconds_exact (Some (zap_NewLogger "raft"))
    (mkStatus true 12000000 None 2000000000) "P1"
  = (statusMonitoringInterval,
     [lg_Warn (zap_NewLogger "raft") "prober found high clock drift"
        [zap_String "remote-peer-id" "P1";
         zap_Duration "clock-drift" 12000000;
         zap_Duration "rtt" 2000000000;
         zap_Error None];
      rttSec_Observe "P1" (Seconds_exact 12000000)]).
Proof. reflexivity. Qed.

(** The sibling paths name the quantities as the claim does. *)
Example unhealthy_warning_fields :
  monitor_tick Seconds_exact (Some (zap_NewLogger "raft"))
    (mkStatus false 12000000 (Some "dial timeout") 50000000) "P1"
  = (statusErrorInterval,
     [lg_Warn (zap_NewLogger "raft") "prober detected unhealthy status"
        [zap_String "remote-peer-id" "P1";
         zap_Duration "rtt" 12000000;
         zap_Error (Some "dial timeout")];
      rttSec_Observe "P1" (Seconds_exact 12000000)]).
Proof. reflexivity. Qed.

Example plog_drift_warning_args :
  monitor_tick Seconds_exact None
    (mkStatus true 12000000 None 2000000000) "P1"
  = (statusMonitoringInterval,
     [plog_Warningf "the clock difference against peer %s is too high [%v > %v]"
        [arg_string "P1"; arg_Duration 2000000000; arg_Duration time.Second];
      rttSec_Observe "P1" (Seconds_exact 12000000)]).
Proof. reflexivity. Qed.

(** A peer that is unreachable at the first reading and has recovered at
    the second: one warning and a wait of five seconds, then no warning and
    a wait of thirty seconds; an observation of 12ms each time. *)
Example monitor_recovery :
  monitorProbingStatus Seconds_exact None "P1"
    [timer_fired (mkStatus false 12000000 (Some "dial timeout") 0);
     timer_fired (mkStatus true 12000000 None 50000000)]
  = (waiting (30 * time.Second),
     [time_After (5 * time.Second);
      plog_Warningf "health check for peer %s could not connect: %v"
        [arg_string "P1"; arg_error (Some "dial timeout")];
      rttSec_Observe "P1" (Seconds_exact 12000000);
      time_After (5 * time.Second);
      rttSec_Observe "P1" (Seconds_exact 12000000);
      time_After (30 * time.Second)])
  /\ Qeq (Seconds_exact 12000000) (Qmake 12 1000).
Proof. split; reflexivity. Qed.

(** A registration that succeeds starts the monitor and gives the prober
    the suffixed addresses. *)
Example addPeerToProber_success :
  addPeerToProber (5 * time.Second) "/raft/probing" (float64 := Q) None
    (mkProber ∅) "P1" ["http://10.0.0.1:2380"]
  = (mkProber {["P1" := (4 * time.Second,
                         ["http://10.0.0.1:2380/raft/probing"])]},
     [go_monitorProbingStatus None (mkStatus false 0 None 0) "P1"]).
Proof. vm_compute. reflexivity. Qed.

(** ** [passwords.go] *)

Section passwords_properties.

Import geth.

Context {StringFlag : Type} `{Countable StringFlag}.
Variable Name : StringFlag -> string.
Variables VoteAccountPasswordFlag VoteBlockMakerAccountPasswordFlag
  PasswordFileFlag : StringFlag.
Variables VaultAddrFlag VaultPrefixFlag VaultPasswordNameFlag
  VaultPasswordPathFlag : StringFlag.

Local Abbreviation usingVaultPassword :=
  (usingVaultPassword Name VoteAccountPasswordFlag
     VoteBlockMakerAccountPasswordFlag PasswordFileFlag VaultAddrFlag
     VaultPrefixFlag VaultPasswordNameFlag VaultPasswordPathFlag).

(** A loop that only appends keeps what the slice held before it. *)
Lemma foldl_append_only {A : Type} (f : list string -> A -> list string) :
  (forall acc x, exists e, f acc x = acc ++ e) ->
  forall l init, exists e, foldl f init l = init ++ e.
Proof.
  intros Hf. induction l as [|x l IH]; intros init.
  - exists []. cbn. rewrite app_nil_r. reflexivity.
  - cbn [foldl]. destruct (Hf init x) as [e1 ->].
    destruct (IH (init ++ e1)) as [e2 ->].
    exists (e1 ++ e2). rewrite app_assoc. reflexivity.
Qed.

Lemma append_if_grows (c : StringFlag * string -> bool) acc (fv : StringFlag * string) :
  exists e, (if c fv then acc ++ [Name (fst fv)] else acc) = acc ++ e.
Proof.
  destruct (c fv).
  - exists [Name (fst fv)]. reflexivity.
  - exists []. rewrite app_nil_r. reflexivity.
Qed.

(** C10: whatever the flags hold and in whatever order the maps are
    traversed, [usingVaultPassword] ends in the [utils.Fatalf] call of its
    too-many-password-flags branch: the slice it counts starts with the
    three empty strings of [make([]string, 3)].  It returns neither [false]
    nor [true], and the Vault branch is not reached. *)
Theorem usingVaultPassword_always_fatal order1 order2 (ctx : cli_Context) :
  (exists extra,
     usingVaultPassword order1 order2 ctx
     = Fatalf
         "Too many password flags have been set.  Only one of the following should be supplied: %v"
         ([""; ""; ""] ++ extra))
  /\ (forall b, usingVaultPassword order1 order2 ctx <> Return b).
Proof.
  assert (Hfatal : exists extra,
     usingVaultPassword order1 order2 ctx
     = Fatalf
         "Too many password flags have been set.  Only one of the following should be supplied: %v"
         ([""; ""; ""] ++ extra)).
  { unfold geth.usingVaultPassword.
    match goal with
    | |- context [foldl ?f (make_strings 3) ?l] =>
        destruct (foldl_append_only f
                    (fun acc fv =>
                       append_if_grows (fun fv => bool_decide (snd fv ≠ "")) acc fv)
                    l (make_strings 3)) as [extra ->]
    end.
    exists extra. reflexivity. }
  split; [exact Hfatal |].
  intros b. destruct Hfatal as [extra ->]. discriminate.
Qed.

End passwords_properties.

(** *** Examples, with flags named by strings *)

(** Exactly one password flag set: the slice has length four. *)
Example usingVaultPassword_one_password_flag :
  geth.usingVaultPassword (fun name : string => name)
    "voteaccountpassword" "voteblockmakerpassword" "password"
    "vaultaddr" "vaultprefix" "vaultpasswordname" "vaultpasswordpath"
    (fun l => l) (fun l => l)
    (fun name => if bool_decide (name = "password") then "pw.txt" else "")
  = geth.Fatalf
      "Too many password flags have been set.  Only one of the following should be supplied: %v"
      [""; ""; ""; "password"].
Proof. vm_compute. reflexivity. Qed.

(** No password flag and every Vault flag set: the slice has length
    three. *)
Example usingVaultPassword_vault_flags_only :
  geth.usingVaultPassword (fun name : string => name)
    "voteaccountpassword" "voteblockmakerpassword" "password"
    "vaultaddr" "vaultprefix" "vaultpasswordname" "vaultpasswordpath"
    (fun l => l) (fun l => l)
    (fun name =>
       if bool_decide (name ∈ ["vaultaddr"; "vaultprefix"; "vaultpasswordname";
                               "vaultpasswordpath"])
       then "set" else "")
  = geth.Fatalf
      "Too many password flags have been set.  Only one of the following should be supplied: %v"
      [""; ""; ""].
Proof. vm_compute. reflexivity. Qed.

(** ** More on [monitorProbingStatus] *)

(** Splits a [Forall] over an explicit list into one goal for each
    element. *)
Ltac each_event :=
  repeat (apply List.Forall_cons); try apply List.Forall_nil.

Section monitor_run_properties.

Import rafthttp.

Context {float64 : Type}.
Variable Seconds : time.Duration -> float64.
Context {S : Type} `{!probing_Status S}.

Local Abbreviation Event := (Event (float64 := float64) (S := S)).
Local Abbreviation monitor_tick := (monitor_tick Seconds).
Local Abbreviation monitor_loop := (monitor_loop Seconds).
Local Abbreviation monitorProbingStatus := (monitorProbingStatus Seconds).

(** What holds of every timer and of the events of every iteration holds
    of every event of a run. *)
Lemma monitor_loop_Forall (Q : Event -> Prop) lg id i sel :
  (forall d, Q (time_After d)) ->
  (forall s, Forall Q (snd (monitor_tick lg s id))) ->
  Forall Q (snd (monitor_loop lg id i sel)).
Proof.
  intros Htimer Htick. rewrite monitor_loop_events.
  constructor; [apply Htimer |].
  induction (iterations sel) as [|s l IH]; [constructor |].
  cbn [flat_map]. rewrite !Forall_app. repeat split.
  - apply Htick.
  - constructor; [apply Htimer | constructor].
  - exact IH.
Qed.

(** A count over a run is the sum of the counts of its iterations, for
    events that are not timers. *)
Lemma monitor_loop_count (f : Event -> bool) lg id i sel :
  (forall d, f (time_After d) = false) ->
  count f (snd (monitor_loop lg id i sel))
  = sum_list ((fun s => count f (snd (monitor_tick lg s id))) <$> iterations sel).
Proof.
  intros Htimer. rewrite monitor_loop_events, count_cons, Htimer.
  cbn [Nat.add].
  induction (iterations sel) as [|s l IH]; [reflexivity |].
  cbn [flat_map fmap list_fmap sum_list sum_list_with].
  rewrite !count_app, count_cons, Htimer, IH. cbn. lia.
Qed.

Lemma sum_list_indicator {A : Type} (c : A -> bool) (l : list A) :
  sum_list ((fun a => if c a then 1%nat else 0%nat) <$> l)
  = length (filter (fun a => c a = true) l).
Proof.
  induction l as [|a l IH]; [reflexivity |].
  cbn [fmap list_fmap sum_list sum_list_with]. rewrite IH.
  destruct (c a) eqn:Hc.
  - rewrite filter_cons_True by exact Hc. reflexivity.
  - rewrite filter_cons_False by (rewrite Hc; discriminate). reflexivity.
Qed.

Lemma monitor_tick_warning_counts lg s id :
  count is_unhealthy_warning (snd (monitor_tick lg s id))
  = (if negb (Health s) then 1%nat else 0%nat)
  /\ count is_drift_warning (snd (monitor_tick lg s id))
     = (if (time.Second <? ClockDiff s)%Z then 1%nat else 0%nat)
  /\ count is_log (snd (monitor_tick lg s id))
     = ((if negb (Health s) then 1 else 0)
        + (if (time.Second <? ClockDiff s)%Z then 1 else 0))%nat
  /\ length (snd (monitor_tick lg s id))
     = ((if negb (Health s) then 1 else 0)
        + (if (time.Second <? ClockDiff s)%Z then 1 else 0) + 1)%nat.
Proof.
  unfold rafthttp.monitor_tick.
  destruct (Health s), (time.Second <? ClockDiff s)%Z, lg;
    repeat split; reflexivity.
Qed.

(** X1: over a run, the unhealthy-status warnings are as many as the
    iterations that read [Health] false, and the clock-drift warnings as
    many as the iterations that read a [ClockDiff] above one second. *)
Theorem monitor_warning_counts lg id sel :
  count is_unhealthy_warning (snd (monitorProbingStatus lg id sel))
  = length (filter (fun s => negb (Health s) = true) (iterations sel))
  /\ count is_drift_warning (snd (monitorProbingStatus lg id sel))
     = length (filter (fun s => (time.Second <? ClockDiff s)%Z = true)
                 (iterations sel)).
Proof.
  unfold rafthttp.monitorProbingStatus. split.
  - rewrite monitor_loop_count by reflexivity.
    rewrite <- sum_list_indicator. f_equal. apply list_fmap_ext.
    intros _ s _. apply monitor_tick_warning_counts.
  - rewrite monitor_loop_count by reflexivity.
    rewrite <- sum_list_indicator. f_equal. apply list_fmap_ext.
    intros _ s _. apply monitor_tick_warning_counts.
Qed.

(** X2: the log calls of an iteration are its unhealthy-status warning and
    its clock-drift warning and no other, so at most two; its events are
    those and the one observation.  Over a run, the log calls are as many
    as the warnings. *)
Theorem monitor_log_counts lg id :
  (forall s,
     count is_log (snd (monitor_tick lg s id))
     = (count is_unhealthy_warning (snd (monitor_tick lg s id))
        + count is_drift_warning (snd (monitor_tick lg s id)))%nat
     /\ (count is_log (snd (monitor_tick lg s id)) <= 2)%nat
     /\ length (snd (monitor_tick lg s id))
        = (count is_log (snd (monitor_tick lg s id)) + 1)%nat)
  /\ (forall sel,
        count is_log (snd (monitorProbingStatus lg id sel))
        = (count is_unhealthy_warning (snd (monitorProbingStatus lg id sel))
           + count is_drift_warning (snd (monitorProbingStatus lg id sel)))%nat).
Proof.
  assert (Htick : forall s,
     count is_log (snd (monitor_tick lg s id))
     = (count is_unhealthy_warning (snd (monitor_tick lg s id))
        + count is_drift_warning (snd (monitor_tick lg s id)))%nat).
  { intros s.
    destruct (monitor_tick_warning_counts lg s id) as (-> & -> & -> & _).
    reflexivity. }
  split.
  - intros s. split; [apply Htick |].
    destruct (monitor_tick_warning_counts lg s id) as (_ & _ & -> & ->).
    split; [| reflexivity].
    destruct (negb (Health s)), (time.Second <? ClockDiff s)%Z; cbn; lia.
  - intros sel. unfold rafthttp.monitorProbingStatus.
    rewrite !monitor_loop_count by reflexivity.
    induction (iterations sel) as [|s l IH]; [reflexivity |].
    cbn [fmap list_fmap sum_list sum_list_with Datatypes.id] in *.
    rewrite IH, Htick. lia.
Qed.

Lemma Forall_filter_impl (Q R : Event -> Prop) `{!forall e, Decision (Q e)}
    (l : list Event) :
  Forall (fun e => Q e -> R e) l -> Forall R (filter Q l).
Proof.
  intros Hall. apply Forall_forall. intros e Hin.
  apply list_elem_of_filter in Hin as [Hq Hin].
  rewrite Forall_forall in Hall. exact (Hall e Hin Hq).
Qed.

Lemma monitor_loop_levels lg id i sel :
  Forall (fun e => is_log e = true -> event_level e = Some WarnLevel)
    (snd (monitor_loop lg id i sel))
  /\ Forall (fun e => event_level e <> Some ErrorLevel /\ is_spawn e = false)
       (snd (monitor_loop lg id i sel)).
Proof.
  split; apply monitor_loop_Forall.
  - intros d. cbn. discriminate.
  - intros s. unfold rafthttp.monitor_tick.
    destruct (Health s), (time.Second <? ClockDiff s)%Z, lg; cbn;
      each_event; cbn; try discriminate; reflexivity.
  - intros d. cbn. split; [discriminate | reflexivity].
  - intros s. unfold rafthttp.monitor_tick.
    destruct (Health s), (time.Second <? ClockDiff s)%Z, lg; cbn;
      each_event; cbn; (split; [discriminate | reflexivity]).
Qed.

(** X3: every log call of a run is at warning level; no event of a run is
    a log call at error level or the start of a goroutine: the monitor only
    warns, observes and waits. *)
Theorem monitor_only_warns lg id sel :
  Forall (fun e => event_level e = Some WarnLevel)
    (filter (fun e => is_log e = true) (snd (monitorProbingStatus lg id sel)))
  /\ Forall (fun e => event_level e <> Some ErrorLevel /\ is_spawn e = false)
       (snd (monitorProbingStatus lg id sel)).
Proof.
  unfold rafthttp.monitorProbingStatus. split.
  - apply Forall_filter_impl, monitor_loop_levels.
  - apply monitor_loop_levels.
Qed.

Lemma monitor_loop_routing id i sel :
  (forall l,
     Forall (fun e => is_log e = true -> logged_through l e = true)
       (snd (monitor_loop (Some l) id i sel)))
  /\ Forall (fun e => is_log e = true -> is_plog e = true)
       (snd (monitor_loop None id i sel)).
Proof.
  split; [intros l |]; apply monitor_loop_Forall.
  - intros d; cbn; discriminate.
  - intros s. unfold rafthttp.monitor_tick.
    destruct (Health s), (time.Second <? ClockDiff s)%Z; cbn;
      each_event; cbn; intros Hlog; try discriminate Hlog;
      apply bool_decide_eq_true; reflexivity.
  - intros d; cbn; discriminate.
  - intros s. unfold rafthttp.monitor_tick.
    destruct (Health s), (time.Second <? ClockDiff s)%Z; cbn;
      each_event; cbn; intros Hlog; try discriminate Hlog; reflexivity.
Qed.

(** X4: with a [zap] logger every log call of a run goes to that logger
    and none to [plog]; without one every log call goes to [plog]. *)
Theorem monitor_log_routing id sel :
  (forall l,
     Forall (fun e => logged_through l e = true)
       (filter (fun e => is_log e = true)
          (snd (monitorProbingStatus (Some l) id sel))))
  /\ Forall (fun e => is_plog e = true)
       (filter (fun e => is_log e = true)
          (snd (monitorProbingStatus None id sel))).
Proof.
  unfold rafthttp.monitorProbingStatus. split; [intros l |];
    apply Forall_filter_impl, monitor_loop_routing.
Qed.

Lemma monitor_loop_names_peer lg id i sel :
  Forall (fun e => is_timer e = false -> names_peer id e = true)
    (snd (monitor_loop lg id i sel)).
Proof.
  apply monitor_loop_Forall.
  - intros d; cbn; discriminate.
  - intros s. unfold rafthttp.monitor_tick.
    destruct (Health s), (time.Second <? ClockDiff s)%Z, lg; cbn;
      each_event; cbn; intros _;
      apply bool_decide_eq_true; rewrite ?elem_of_cons; auto.
Qed.

(** X5: every event of a run that is not a wait, that is every log call
    and every observation, names the peer the monitor was started for. *)
Theorem monitor_names_peer lg id sel :
  Forall (fun e => names_peer id e = true)
    (filter (fun e => is_timer e = false)
       (snd (monitorProbingStatus lg id sel))).
Proof.
  unfold rafthttp.monitorProbingStatus.
  apply Forall_filter_impl, monitor_loop_names_peer.
Qed.

Lemma monitor_loop_not_stopped lg id i sel :
  stop_notified ∉ sel ->
  fst (monitor_loop lg id i sel)
  = waiting (default i ((fun s => fst (monitor_tick lg s id))
                          <$> last (iterations sel))).
Proof.
  revert i. induction sel as [|[s|] sel IH]; intros i Hsel.
  - reflexivity.
  - rewrite monitor_loop_cons_timer. cbn [fst iterations].
    rewrite IH by (intros Hin; apply Hsel; right; exact Hin).
    destruct (iterations sel) as [|s' l]; [reflexivity |].
    change (last (s :: s' :: l)) with (last (s' :: l)).
    destruct (last (s' :: l)) eqn:Hl; [reflexivity |].
    apply last_None in Hl. discriminate.
  - exfalso. apply Hsel. left.
Qed.

(** X6: the events of a run are the wait on [statusErrorInterval], then,
    for each iteration in order, its events followed by the wait on the
    interval it set.  Without a stop the goroutine ends up waiting on the
    interval the last iteration set, on [statusErrorInterval] if there was
    none; the waits are one more than the iterations. *)
Theorem monitorProbingStatus_trace lg id sel :
  snd (monitorProbingStatus lg id sel)
  = time_After statusErrorInterval
    :: flat_map (fun s => snd (monitor_tick lg s id)
                          ++ [time_After (fst (monitor_tick lg s id))])
         (iterations sel)
  /\ count is_timer (snd (monitorProbingStatus lg id sel))
     = Datatypes.S (length (iterations sel))
  /\ (stop_notified ∉ sel ->
      fst (monitorProbingStatus lg id sel)
      = waiting (default statusErrorInterval
                   ((fun s => if Health s then statusMonitoringInterval
                              else statusErrorInterval)
                      <$> last (iterations sel)))).
Proof.
  unfold rafthttp.monitorProbingStatus. split; [| split].
  - apply monitor_loop_events.
  - rewrite monitor_loop_events, count_cons. cbn [is_timer Nat.add]. f_equal.
    induction (iterations sel) as [|s l IH]; [reflexivity |].
    cbn [flat_map length]. rewrite !count_app, count_cons, IH.
    cbn [is_timer].
    assert (Hno : count is_timer (snd (monitor_tick lg s id)) = 0%nat).
    { unfold rafthttp.monitor_tick.
      destruct (Health s), (time.Second <? ClockDiff s)%Z, lg; reflexivity. }
    rewrite Hno. reflexivity.
  - intros Hsel. rewrite monitor_loop_not_stopped by exact Hsel.
    destruct (last (iterations sel)) as [s|]; [| reflexivity].
    cbn. rewrite monitor_tick_interval. reflexivity.
Qed.

End monitor_run_properties.

(** ** More on [addPeerToProber] *)

Local Abbreviation bytes_of := Stdlib.Strings.String.list_ascii_of_string.

Lemma list_ascii_of_string_app (a b : string) :
  bytes_of (a +:+ b) = bytes_of a ++ bytes_of b.
Proof.
  induction a as [|c a IH]; [reflexivity |].
  change (String c a +:+ b) with (String c (a +:+ b)).
  cbn [Stdlib.Strings.String.list_ascii_of_string]. rewrite IH. reflexivity.
Qed.

Lemma string_app_inv_tail (a b suffix : string) :
  a +:+ suffix = b +:+ suffix -> a = b.
Proof.
  intros Heq. apply (f_equal bytes_of) in Heq.
  rewrite !list_ascii_of_string_app in Heq. apply app_inv_tail in Heq.
  rewrite <- (Stdlib.Strings.String.string_of_list_ascii_of_string a),
          <- (Stdlib.Strings.String.string_of_list_ascii_of_string b), Heq.
  reflexivity.
Qed.

Section registration_more_properties.

Import rafthttp.

Variable ConnReadTimeout : time.Duration.
Variable ProbingPrefix : string.
Context {float64 S P : Type} `{!probing_Prober P S}.

Local Abbreviation addPeerToProber :=
  (addPeerToProber ConnReadTimeout ProbingPrefix (float64 := float64)).
Local Abbreviation probe_urls := (probe_urls ProbingPrefix).
Local Abbreviation proberInterval := (proberInterval ConnReadTimeout).

(** X7: when [Status] returns a handle, [addPeerToProber] starts exactly
    one monitor goroutine, on that handle, with the logger and identifier
    it was called with, and logs nothing.  The error result of [AddHTTP] is
    discarded: the goroutine is started also when [AddHTTP] reported an
    error. *)
Theorem addPeerToProber_starts_monitor lg (p p' : P) id (us : list string)
    (e : error) (s : S) :
  AddHTTP p id proberInterval (probe_urls us) = (p', e) ->
  Status p' id = inl s ->
  addPeerToProber lg p id us = (p', [go_monitorProbingStatus lg s id])
  /\ count is_spawn (snd (addPeerToProber lg p id us)) = 1%nat
  /\ count is_log (snd (addPeerToProber lg p id us)) = 0%nat.
Proof.
  intros Hadd Hstatus. unfold rafthttp.addPeerToProber.
  rewrite Hadd, Hstatus. repeat split; reflexivity.
Qed.

(** X8: a call of [addPeerToProber] makes exactly one event, which names
    the peer: the log of the failure or the start of the goroutine, never
    both and never neither. *)
Theorem addPeerToProber_one_event lg (p : P) id (us : list string) :
  length (snd (addPeerToProber lg p id us)) = 1%nat
  /\ (count is_log (snd (addPeerToProber lg p id us))
      + count is_spawn (snd (addPeerToProber lg p id us)) = 1)%nat
  /\ Forall (fun ev => names_peer id ev = true)
       (snd (addPeerToProber lg p id us)).
Proof.
  unfold rafthttp.addPeerToProber.
  destruct (AddHTTP p id proberInterval (probe_urls us)) as [p' e].
  destruct (Status p' id) as [s | err], lg; cbn [snd];
    (split; [reflexivity | split; [reflexivity |]]);
    each_event; cbn; apply bool_decide_eq_true;
    rewrite ?elem_of_cons; auto.
Qed.

(** X9: the list of probe addresses determines the list of base addresses,
    is empty for no base address, and is built address by address. *)
Theorem probe_urls_injective (us vs : list string) :
  (probe_urls us = probe_urls vs -> us = vs)
  /\ probe_urls [] = []
  /\ probe_urls (us ++ vs) = probe_urls us ++ probe_urls vs.
Proof.
  rewrite !(probe_urls_map ProbingPrefix). split; [| split].
  - revert vs. induction us as [|u us IH]; intros [|v vs] Heq;
      try discriminate; [reflexivity |].
    cbn [fmap list_fmap] in Heq. injection Heq as Huv Hrest.
    f_equal; [exact (string_app_inv_tail _ _ _ Huv) | exact (IH _ Hrest)].
  - reflexivity.
  - apply fmap_app.
Qed.

End registration_more_properties.

Lemma addPeerToProber_starts_monitor_witness :
  let p := rafthttp.mkProber
             {["P1" := (4 * time.Second, ["http://10.0.0.1:2380/raft/probing"])]} in
  rafthttp.AddHTTP p "P1" (rafthttp.proberInterval (5 * time.Second))
    (rafthttp.probe_urls "/raft/probing" ["http://10.0.0.2:2380"])
  = (p, Some "probing: id exists")
  /\ snd (rafthttp.addPeerToProber (5 * time.Second) "/raft/probing"
            (float64 := Q) None p "P1" ["http://10.0.0.2:2380"])
     = [rafthttp.go_monitorProbingStatus None
          (rafthttp.mkStatus false 0 None 0) "P1"].
Proof.
  cbn zeta.
  assert (Hadd :
    rafthttp.AddHTTP
      (rafthttp.mkProber
         {["P1" := (4 * time.Second, ["http://10.0.0.1:2380/raft/probing"])]})
      "P1" (rafthttp.proberInterval (5 * time.Second))
      (rafthttp.probe_urls "/raft/probing" ["http://10.0.0.2:2380"])
    = (rafthttp.mkProber
         {["P1" := (4 * time.Second, ["http://10.0.0.1:2380/raft/probing"])]},
       Some "probing: id exists")) by (vm_compute; reflexivity).
  split; [exact Hadd |].
  rewrite (proj1 (addPeerToProber_starts_monitor (5 * time.Second)
                    "/raft/probing" None _ _ "P1" ["http://10.0.0.2:2380"]
                    _ (rafthttp.mkStatus false 0 None 0) Hadd
                    ltac:(vm_compute; reflexivity))).
  reflexivity.
Defined.

(** ** More on [passwords.go] *)

(** *** [strings.Split] *)

Lemma strings_Split_cons (s : string) (sep : ascii) :
  exists piece pieces, geth.strings_Split s sep = piece :: pieces.
Proof.
  destruct s as [|c s]; cbn [geth.strings_Split]; [eauto |].
  destruct (Stdlib.Strings.Ascii.eqb c sep); [eauto |].
  destruct (geth.strings_Split s sep); eauto.
Qed.

Lemma strings_Join_cons (piece piece' : string) (pieces : list string)
    (sep : ascii) :
  geth.strings_Join (piece :: piece' :: pieces) sep
  = piece +:+ String sep (geth.strings_Join (piece' :: pieces) sep).
Proof. reflexivity. Qed.

(** Joining the pieces gives the string back. *)
Lemma strings_Join_Split (s : string) (sep : ascii) :
  geth.strings_Join (geth.strings_Split s sep) sep = s.
Proof.
  induction s as [|c s IH]; [reflexivity |].
  cbn [geth.strings_Split].
  destruct (strings_Split_cons s sep) as (piece & pieces & Hs).
  rewrite Hs in IH |- *.
  destruct (Stdlib.Strings.Ascii.eqb_spec c sep) as [-> | Hne].
  - rewrite strings_Join_cons, IH. reflexivity.
  - destruct pieces as [|piece' pieces].
    + cbn [geth.strings_Join] in IH |- *. rewrite IH. reflexivity.
    + rewrite strings_Join_cons in IH |- *.
      change (String c piece +:+ ?t) with (String c (piece +:+ t)).
      rewrite IH. reflexivity.
Qed.

(** No piece holds the separator. *)
Lemma strings_Split_free (s : string) (sep : ascii) :
  Forall (fun piece => sep ∉ bytes_of piece) (geth.strings_Split s sep).
Proof.
  induction s as [|c s IH]; cbn [geth.strings_Split].
  - each_event. cbn. apply not_elem_of_nil.
  - destruct (Stdlib.Strings.Ascii.eqb_spec c sep) as [-> | Hne].
    + apply List.Forall_cons; [cbn; apply not_elem_of_nil | exact IH].
    + destruct (geth.strings_Split s sep) as [|piece pieces].
      * each_event. cbn. rewrite list_elem_of_singleton. congruence.
      * apply Forall_cons in IH as [Hpiece Hpieces].
        apply List.Forall_cons; [| exact Hpieces].
        cbn. rewrite elem_of_cons. intros [Heq | Hin]; [congruence | tauto].
Qed.

(** One piece exactly when the separator does not occur. *)
Lemma strings_Split_length (s : string) (sep : ascii) :
  (length (geth.strings_Split s sep) <? 2)%nat = true <-> sep ∉ bytes_of s.
Proof.
  induction s as [|c s IH]; cbn [geth.strings_Split].
  - cbn. split; [intros _; apply not_elem_of_nil | reflexivity].
  - cbn [Stdlib.Strings.String.list_ascii_of_string].
    rewrite not_elem_of_cons.
    destruct (strings_Split_cons s sep) as (piece & pieces & Hs).
    rewrite Hs in IH |- *.
    destruct (Stdlib.Strings.Ascii.eqb_spec c sep) as [-> | Hne].
    + cbn. split; [discriminate | intros [Hne _]; congruence].
    + cbn [length] in IH |- *. rewrite IH. intuition congruence.
Qed.

(** *** [fetchPasswordFromCLI] *)

Section cli_properties.

Import geth.

Context {StringFlag : Type}.
Variable Name : StringFlag -> string.
Variables VoteAccountPasswordFlag VoteBlockMakerAccountPasswordFlag
  PasswordFileFlag : StringFlag.

Local Abbreviation fetchPasswordFromCLI :=
  (fetchPasswordFromCLI Name VoteAccountPasswordFlag
     VoteBlockMakerAccountPasswordFlag PasswordFileFlag).

(** The values of the three password flags, in the order the function
    tries them. *)
Local Abbreviation password_flags ctx :=
  [GlobalString ctx (Name VoteAccountPasswordFlag);
   GlobalString ctx (Name VoteBlockMakerAccountPasswordFlag);
   GlobalString ctx (Name PasswordFileFlag)].

Lemma fetchPasswordFromCLI_filter (ctx : cli_Context) :
  fetchPasswordFromCLI ctx
  = match filter (fun v => v ≠ "") (password_flags ctx) with
    | password :: _ => Return (password, None)
    | [] =>
        Fatalf
          "Looked for password via fetchPasswordFromCLI, but no password arguments found."
          []
    end.
Proof.
  unfold geth.fetchPasswordFromCLI.
  destruct (decide (GlobalString ctx (Name VoteAccountPasswordFlag) = ""))
    as [Ha | Ha].
  - rewrite (bool_decide_eq_false_2 _ (fun Hn => Hn Ha)).
    rewrite filter_cons_False by (intros Hn; exact (Hn Ha)).
    destruct (decide (GlobalString ctx (Name VoteBlockMakerAccountPasswordFlag) = ""))
      as [Hb | Hb].
    + rewrite (bool_decide_eq_false_2 _ (fun Hn => Hn Hb)).
      rewrite filter_cons_False by (intros Hn; exact (Hn Hb)).
      destruct (decide (GlobalString ctx (Name PasswordFileFlag) = ""))
        as [Hf | Hf].
      * rewrite (bool_decide_eq_false_2 _ (fun Hn => Hn Hf)).
        rewrite filter_cons_False by (intros Hn; exact (Hn Hf)).
        reflexivity.
      * rewrite (bool_decide_eq_true_2 _ Hf).
        rewrite filter_cons_True by exact Hf. reflexivity.
    + rewrite (bool_decide_eq_true_2 _ Hb).
      rewrite filter_cons_True by exact Hb. reflexivity.
  - rewrite (bool_decide_eq_true_2 _ Ha).
    rewrite filter_cons_True by exact Ha. reflexivity.
Qed.

(** X10: [fetchPasswordFromCLI] returns, with a nil error, the first value
    that is not empty among the flags for the vote account password, the
    block maker password and the password file, in that order; it ends in
    [utils.Fatalf] when the three are empty. *)
Theorem fetchPasswordFromCLI_first_set (ctx : cli_Context) :
  fetchPasswordFromCLI ctx
  = match filter (fun v => v ≠ "") (password_flags ctx) with
    | password :: _ => Return (password, None)
    | [] =>
        Fatalf
          "Looked for password via fetchPasswordFromCLI, but no password arguments found."
          []
    end.
Proof. apply fetchPasswordFromCLI_filter. Qed.

(** X11: a password that [fetchPasswordFromCLI] returns is never empty, is
    the value of one of the three flags, and comes with a nil error; the
    function exits exactly when none of the three flags has a value. *)
Theorem fetchPasswordFromCLI_returns (ctx : cli_Context) :
  (forall password err,
     fetchPasswordFromCLI ctx = Return (password, err) ->
     err = None /\ password ≠ "" /\ password ∈ password_flags ctx)
  /\ ((exists format args, fetchPasswordFromCLI ctx = Fatalf format args)
      <-> Forall (fun v => v = "") (password_flags ctx)).
Proof.
  rewrite fetchPasswordFromCLI_filter.
  destruct (filter (fun v => v ≠ "") (password_flags ctx))
    as [|v l] eqn:Hfilter.
  - split; [discriminate |].
    split; [intros _ | eauto].
    apply Forall_forall. intros v Hv.
    destruct (decide (v = "")) as [-> | Hne]; [reflexivity |].
    assert (Hin : v ∈ filter (fun v => v ≠ "") (password_flags ctx))
      by (apply list_elem_of_filter; auto).
    rewrite Hfilter in Hin. apply elem_of_nil in Hin. contradiction.
  - assert (Hin : v ∈ filter (fun v => v ≠ "") (password_flags ctx))
      by (rewrite Hfilter; left).
    apply list_elem_of_filter in Hin as [Hne Hin].
    split.
    + intros password err [= <- <-]. auto.
    + split; [intros (format & args & Heq); discriminate |].
      intros Hall. rewrite Forall_forall in Hall.
      exfalso. exact (Hne (Hall v Hin)).
Qed.

End cli_properties.

Lemma fetchPasswordFromCLI_returns_witness :
  let ctx : geth.cli_Context :=
    fun name => if bool_decide (name = "password") then "pw.txt" else "" in
  geth.fetchPasswordFromCLI (fun name : string => name)
    "voteaccountpassword" "voteblockmakerpassword" "password" ctx
  = geth.Return ("pw.txt", None)
  /\ ("pw.txt" : string) ≠ "".
Proof.
  cbn zeta.
  assert (Hret :
    geth.fetchPasswordFromCLI (fun name : string => name)
      "voteaccountpassword" "voteblockmakerpassword" "password"
      (fun name => if bool_decide (name = "password") then "pw.txt" else "")
    = geth.Return ("pw.txt", None)) by (vm_compute; reflexivity).
  split; [exact Hret |].
  exact (proj1 (proj2 (proj1 (fetchPasswordFromCLI_returns
                                (fun name : string => name)
                                "voteaccountpassword" "voteblockmakerpassword"
                                "password" _) _ _ Hret))).
Defined.

(** *** [getIAMRole], [loginAws], [fetchPasswordFromVault], [fetchPassword] *)

Section vault_properties.

Import geth.

Context {StringFlag : Type} `{Countable StringFlag}.
Variable Name : StringFlag -> string.
Variables VoteAccountPasswordFlag VoteBlockMakerAccountPasswordFlag
  PasswordFileFlag : StringFlag.
Variables VaultAddrFlag VaultPrefixFlag VaultPasswordNameFlag
  VaultPasswordPathFlag : StringFlag.
Context {ConfigRest : Type}.
Variable DefaultConfig : Config (ConfigRest := ConfigRest).
Context {Client : Type}.
Variable NewClient : Config (ConfigRest := ConfigRest) -> exec (Client * error).
Variable SetToken : Client -> string -> exec Client.
Variable Logical_Read : Client -> string -> exec (option Secret * error).
Variable GenerateLoginData :
  string -> string -> string -> string -> exec (option (gmap string iface) * error).
Variable IAMInfo : exec (EC2IAMInfo * error).

Local Abbreviation getIAMRole := (getIAMRole IAMInfo).
Local Abbreviation usingVaultPassword :=
  (usingVaultPassword Name VoteAccountPasswordFlag
     VoteBlockMakerAccountPasswordFlag PasswordFileFlag VaultAddrFlag
     VaultPrefixFlag VaultPasswordNameFlag VaultPasswordPathFlag).

Local Abbreviation too_many :=
  "Too many password flags have been set.  Only one of the following should be supplied: %v".

Lemma usingVaultPassword_exits order1 order2 (ctx : cli_Context) :
  exists extra,
    usingVaultPassword order1 order2 ctx
    = Fatalf too_many ([""; ""; ""] ++ extra).
Proof.
  unfold geth.usingVaultPassword.
  match goal with
  | |- context [foldl ?f (make_strings 3) ?l] =>
      destruct (foldl_append_only f
                  (fun acc fv =>
                     append_if_grows Name (fun fv => bool_decide (snd fv ≠ ""))
                       acc fv)
                  l (make_strings 3)) as [extra ->]
  end.
  exists extra. reflexivity.
Qed.

(** X12: on an instance profile ARN without a slash [getIAMRole] returns
    the error "no / character found"; on any other it returns, with a nil
    error, the piece of the ARN between its first slash and its second, or
    its end: the ARN is the pieces joined by slashes, and neither the piece
    before the role nor the role holds a slash.  An error of [IAMInfo] is
    returned with an empty role. *)
Theorem getIAMRole_role :
  (forall iam e, IAMInfo = mret (iam, Some e) -> getIAMRole = mret ("", Some e))
  /\ (forall iam,
        IAMInfo = mret (iam, None) ->
        ("/"%char ∉ bytes_of (InstanceProfileArn iam) ->
         getIAMRole
         = mret ("", Some "no / character found in instance profile ARN"))
        /\ ("/"%char ∈ bytes_of (InstanceProfileArn iam) ->
            exists before role after,
              getIAMRole = mret (role, None)
              /\ InstanceProfileArn iam
                 = strings_Join (before :: role :: after) "/"
              /\ ("/"%char ∉ bytes_of before)
              /\ ("/"%char ∉ bytes_of role))).
Proof.
  split.
  - intros iam e Hiam. unfold geth.getIAMRole. rewrite Hiam. reflexivity.
  - intros iam Hiam. unfold geth.getIAMRole. rewrite Hiam.
    cbn [mbind exec_bind mret exec_ret]. split.
    + intros Hno. apply strings_Split_length in Hno. rewrite Hno. reflexivity.
    + intros Hin.
      destruct (length (strings_Split (InstanceProfileArn iam) "/") <? 2)%nat
        eqn:Hlen.
      { apply strings_Split_length in Hlen. contradiction. }
      pose proof (strings_Join_Split (InstanceProfileArn iam) "/") as Hjoin.
      pose proof (strings_Split_free (InstanceProfileArn iam) "/") as Hfree.
      destruct (strings_Split (InstanceProfileArn iam) "/")
        as [|before [|role after]]; [discriminate | discriminate |].
      apply Forall_cons in Hfree as [Hbefore Hrest].
      apply Forall_cons in Hrest as [Hrole _].
      exists before, role, after. cbn [lookup list_lookup].
      repeat split; [symmetry; exact Hjoin | exact Hbefore | exact Hrole].
Qed.

Section login.

Variable Logical_Write :
  Client -> string -> gmap string iface -> exec (option Secret * error).

Local Abbreviation loginAws := (loginAws Logical_Write GenerateLoginData IAMInfo).

(** X13: when [loginAws] returns, it returns either a nil error with the
    [ClientToken] of the secret that the write to [auth/aws/login]
    produced, the data written being those of [GenerateLoginData] with the
    key [role] set to the role of [getIAMRole]; or an error with an empty
    token.  It never returns a token together with an error. *)
Theorem loginAws_result (v : Client) (token : string) (err : error) :
  loginAws v = mret (token, err) ->
  (err = None
   /\ exists data role secret auth,
        GenerateLoginData "" "" "" "" = mret (Some data, None)
        /\ getIAMRole = mret (role, None)
        /\ Logical_Write v "auth/aws/login" (<["role" := iface_string role]> data)
           = mret (Some secret, None)
        /\ Auth secret = Some auth
        /\ token = ClientToken auth)
  \/ (err <> None /\ token = "").
Proof.
  unfold geth.loginAws.
  destruct (GenerateLoginData "" "" "" "")
    as [[[loginData [e|]] | ? ?] | ? | ?];
    cbn [mbind exec_bind]; try discriminate.
  { intros [= <- <-]. right. split; [discriminate | reflexivity]. }
  destruct loginData as [data|].
  2: { intros [= <- <-]. right. split; [discriminate | reflexivity]. }
  destruct (geth.getIAMRole IAMInfo) as [[[role [e|]] | ? ?] | ? | ?];
    cbn [mbind exec_bind]; try discriminate.
  { intros [= <- <-]. right. split; [discriminate | reflexivity]. }
  destruct (Logical_Write v "auth/aws/login" (<["role":=iface_string role]> data))
    as [[[secret [e|]] | ? ?] | ? | ?] eqn:Hwrite;
    cbn [mbind exec_bind]; try discriminate.
  { intros [= <- <-]. right. split; [discriminate | reflexivity]. }
  destruct secret as [secret|].
  2: { intros [= <- <-]. right. split; [discriminate | reflexivity]. }
  destruct (Auth secret) as [auth|] eqn:Hauth.
  2: { intros [= <- <-]. right. split; [discriminate | reflexivity]. }
  intros [= <- <-]. left. split; [reflexivity |].
  exists data, role, secret, auth. repeat split; assumption || reflexivity.
Qed.

End login.

(** X14: when [GenerateLoginData] gives no login data or [getIAMRole] gives
    no role, [loginAws] does not depend on what a write to Vault would do:
    its result is the same for every behaviour of the Vault client. *)
Theorem loginAws_needs_role
    (Write1 Write2 :
       Client -> string -> gmap string iface -> exec (option Secret * error))
    (v : Client) :
  (forall data, GenerateLoginData "" "" "" "" <> mret (Some data, None))
  \/ (forall role, getIAMRole <> mret (role, None)) ->
  geth.loginAws Write1 GenerateLoginData IAMInfo v
  = geth.loginAws Write2 GenerateLoginData IAMInfo v.
Proof.
  intros Hnone. unfold geth.loginAws.
  destruct (GenerateLoginData "" "" "" "")
    as [[[loginData [e|]] | ? ?] | ? | ?] eqn:Hgen;
    cbn [mbind exec_bind]; try reflexivity.
  destruct loginData as [data|]; [| reflexivity].
  destruct (geth.getIAMRole IAMInfo) as [[[role [e|]] | ? ?] | ? | ?] eqn:Hrole;
    cbn [mbind exec_bind]; try reflexivity.
  exfalso. destruct Hnone as [Hnone | Hnone].
  - exact (Hnone data eq_refl).
  - exact (Hnone role eq_refl).
Qed.

(** X15: whatever the flags hold, in whatever order the maps are traversed
    and whatever Vault and AWS would answer, [fetchPasswordFromVault] ends
    in the [utils.Fatalf] of the too-many-password-flags branch of
    [usingVaultPassword]: it returns no password and calls neither the
    Vault client nor AWS. *)
Theorem fetchPasswordFromVault_always_fatal
    (Logical_Write :
       Client -> string -> gmap string iface -> exec (option Secret * error))
    order1 order2 (ctx : cli_Context) :
  exists extra,
    fetchPasswordFromVault Name VoteAccountPasswordFlag
      VoteBlockMakerAccountPasswordFlag PasswordFileFlag VaultAddrFlag
      VaultPrefixFlag VaultPasswordNameFlag VaultPasswordPathFlag
      DefaultConfig NewClient SetToken Logical_Read Logical_Write
      GenerateLoginData IAMInfo order1 order2 ctx
    = Ran (Fatalf too_many ([""; ""; ""] ++ extra)).
Proof.
  unfold geth.fetchPasswordFromVault.
  destruct (usingVaultPassword_exits order1 order2 ctx) as [extra ->].
  exists extra. reflexivity.
Qed.

(** X16: [fetchPassword] never returns a password: for every context,
    also one with exactly one password flag set, it ends in the
    [utils.Fatalf] of the too-many-password-flags branch, and reaches
    neither [fetchPasswordFromCLI] nor [fetchPasswordFromVault]. *)
Theorem fetchPassword_always_fatal
    (Logical_Write :
       Client -> string -> gmap string iface -> exec (option Secret * error))
    order1 order2 order3 order4 (ctx : cli_Context) :
  (exists extra,
     fetchPassword Name VoteAccountPasswordFlag
       VoteBlockMakerAccountPasswordFlag PasswordFileFlag VaultAddrFlag
       VaultPrefixFlag VaultPasswordNameFlag VaultPasswordPathFlag
       DefaultConfig NewClient SetToken Logical_Read Logical_Write
       GenerateLoginData IAMInfo order1 order2 order3 order4 ctx
     = Ran (Fatalf too_many ([""; ""; ""] ++ extra)))
  /\ (forall result,
        fetchPassword Name VoteAccountPasswordFlag
          VoteBlockMakerAccountPasswordFlag PasswordFileFlag VaultAddrFlag
          VaultPrefixFlag VaultPasswordNameFlag VaultPasswordPathFlag
          DefaultConfig NewClient SetToken Logical_Read Logical_Write
          GenerateLoginData IAMInfo order1 order2 order3 order4 ctx
        <> mret result).
Proof.
  unfold geth.fetchPassword.
  destruct (usingVaultPassword_exits order1 order2 ctx) as [extra ->].
  split; [exists extra; reflexivity | intros result; discriminate].
Qed.

End vault_properties.

(** *** Instances of the properties with a hypothesis *)

Lemma monitorProbingStatus_trace_witness :
  let s := rafthttp.mkStatus true 12000000 None 50000000 in
  (rafthttp.stop_notified ∉ [rafthttp.timer_fired s])
  /\ (fst (rafthttp.monitorProbingStatus rafthttp.Seconds_exact None "P1"
             [rafthttp.timer_fired s])
      = rafthttp.waiting rafthttp.statusMonitoringInterval).
Proof.
  cbn zeta.
  assert (Hsel : rafthttp.stop_notified
                 ∉ [rafthttp.timer_fired
                      (rafthttp.mkStatus true 12000000 None 50000000)]).
  { rewrite list_elem_of_singleton. discriminate. }
  split; [exact Hsel |].
  rewrite (proj2 (proj2 (monitorProbingStatus_trace rafthttp.Seconds_exact
                           None "P1" _)) Hsel).
  reflexivity.
Defined.

Lemma probe_urls_injective_witness :
  rafthttp.probe_urls "/raft/probing" ["http://10.0.0.1:2380"]
  = rafthttp.probe_urls "/raft/probing" ["http://10.0.0.1:2380"]
  /\ ["http://10.0.0.1:2380"] = ["http://10.0.0.1:2380"] :> list string.
Proof.
  split; [reflexivity |].
  exact (proj1 (probe_urls_injective "/raft/probing"
                  ["http://10.0.0.1:2380"] ["http://10.0.0.1:2380"]) eq_refl).
Defined.

Lemma getIAMRole_role_witness :
  let iam :=
    geth.mkEC2IAMInfo "arn:aws:iam::123456789012:instance-profile/my-role" in
  ("/"%char ∈ bytes_of (geth.InstanceProfileArn iam))
  /\ exists before role after,
       geth.getIAMRole (mret (iam, None)) = mret (role, None)
       /\ geth.InstanceProfileArn iam
          = geth.strings_Join (before :: role :: after) "/"
       /\ ("/"%char ∉ bytes_of before)
       /\ ("/"%char ∉ bytes_of role).
Proof.
  cbn zeta.
  assert (Hin : "/"%char
                ∈ bytes_of
                    (geth.InstanceProfileArn
                       (geth.mkEC2IAMInfo
                          "arn:aws:iam::123456789012:instance-profile/my-role"))).
  { apply (bool_decide_unpack _). vm_compute. exact I. }
  split; [exact Hin |].
  exact (proj2 (proj2 (getIAMRole_role (mret (_, None))) _ eq_refl) Hin).
Defined.

Lemma loginAws_result_witness :
  let Write := fun (_ : unit) (_ : string) (_ : gmap string geth.iface) =>
    mret (M := geth.exec)
      (Some (geth.mkSecret (Some (geth.mkSecretAuth "s.token")) ∅),
       None : error) in
  let Generate := fun _ _ _ _ : string =>
    mret (M := geth.exec) (Some (∅ : gmap string geth.iface), None : error) in
  let IAMInfo :=
    mret (M := geth.exec)
      (geth.mkEC2IAMInfo "arn:aws:iam::123456789012:instance-profile/my-role",
       None : error) in
  geth.loginAws Write Generate IAMInfo tt = mret ("s.token", None)
  /\ (((None : error) = None
       /\ exists data role secret auth,
            Generate "" "" "" "" = mret (Some data, None)
            /\ geth.getIAMRole IAMInfo = mret (role, None)
            /\ Write tt "auth/aws/login" (<["role" := geth.iface_string role]> data)
               = mret (Some secret, None)
            /\ geth.Auth secret = Some auth
            /\ "s.token" = geth.ClientToken auth)
      \/ ((None : error) <> None /\ "s.token" = "")).
Proof.
  cbn zeta.
  match goal with
  | |- ?hyp /\ _ => assert (Hret : hyp) by (vm_compute; reflexivity)
  end.
  split; [exact Hret |].
  exact (loginAws_result _ _ _ tt "s.token" None Hret).
Defined.

Lemma loginAws_needs_role_witness :
  let Generate := fun _ _ _ _ : string =>
    mret (M := geth.exec) (Some (∅ : gmap string geth.iface), None : error) in
  let IAMInfo :=
    mret (M := geth.exec) (geth.mkEC2IAMInfo "my-role", None : error) in
  let Write1 := fun (_ : unit) (_ : string) (_ : gmap string geth.iface) =>
    mret (M := geth.exec)
      (Some (geth.mkSecret (Some (geth.mkSecretAuth "s.token")) ∅),
       None : error) in
  let Write2 := fun (_ : unit) (_ : string) (_ : gmap string geth.iface) =>
    geth.panic (A := option geth.Secret * error) "nil client" in
  (forall role, geth.getIAMRole IAMInfo <> mret (role, None))
  /\ geth.loginAws Write1 Generate IAMInfo tt
     = geth.loginAws Write2 Generate IAMInfo tt.
Proof.
  cbn zeta.
  match goal with
  | |- ?hyp /\ _ =>
      assert (Hrole : hyp) by (intros role; vm_compute; discriminate)
  end.
  split; [exact Hrole |].
  exact (loginAws_needs_role _ _ _ _ tt (or_intror Hrole)).
Defined.
